(** * The chat component of [src/App.tsx]: conversation state machine

    [App] owns three [useState] cells ([messages], [input], [isLoading]) and
    changes them only from its event handlers: [onChange] of the text field,
    [handleSend] (Enter in the text field, click on the send button),
    [clearChat] (click on the trash button), and the continuation of
    [handleSend] that runs when the awaited [generateContent] promise settles.

    Modelling conventions.
    - A JavaScript string is the list of its UTF-16 code units ([jsstring]).
      String literals of the source are written as in the source and decoded
      by [utf16].
    - [Date.now()] and [new Date()] are readings of the clock, supplied with
      the event that triggers the handler ([Clock]).
    - A handler is a computation over the React store that can complete
      normally or throw ([Handler]); a state setter called with an updater
      function applies it to the store, and reads of [messages], [input] and
      [isLoading] inside a handler go to the values of the render the handler
      was created in.  Events are processed one at a time and every handler
      that runs belongs to the latest render.
    - [console.error], the scroll effect and the animation layer do not touch
      the three cells and are left out. *)

From Stdlib Require Import String Ascii List Bool NArith Lia.
From Stdlib Require Decimal DecimalN.
Import ListNotations.

Local Open Scope N_scope.
Local Open Scope list_scope.

(** ** JavaScript strings *)

Module JS.

Definition jsstring := list N.

(** Code points of a UTF-8 byte sequence; a truncated sequence decodes to
    U+FFFD. *)
Fixpoint utf8_decode (bs : list N) : list N :=
  match bs with
  | [] => []
  | b :: r =>
      if b <? 128 then b :: utf8_decode r
      else if b <? 224 then
        match r with
        | c1 :: r1 => ((b - 192) * 64 + (c1 - 128)) :: utf8_decode r1
        | _ => [65533]
        end
      else if b <? 240 then
        match r with
        | c1 :: c2 :: r2 =>
            ((b - 224) * 4096 + (c1 - 128) * 64 + (c2 - 128)) :: utf8_decode r2
        | _ => [65533]
        end
      else
        match r with
        | c1 :: c2 :: c3 :: r3 =>
            ((b - 240) * 262144 + (c1 - 128) * 4096 + (c2 - 128) * 64 + (c3 - 128))
              :: utf8_decode r3
        | _ => [65533]
        end
  end.

(** UTF-16 code units of a code point (a surrogate pair above U+FFFF). *)
Definition code_units (cp : N) : list N :=
  if cp <? 65536 then [cp]
  else [55296 + (cp - 65536) / 1024; 56320 + (cp - 65536) mod 1024].

Definition bytes_of_string (s : string) : list N :=
  map N_of_ascii (list_ascii_of_string s).

(** The JavaScript string denoted by a literal of the source file. *)
Definition utf16 (s : string) : jsstring :=
  flat_map code_units (utf8_decode (bytes_of_string s)).

Definition eqb (a b : jsstring) : bool :=
  if list_eq_dec N.eq_dec a b then true else false.

(** Truthiness of a string: every string but [''] is truthy. *)
Definition truthy (s : jsstring) : bool :=
  match s with [] => false | _ :: _ => true end.

(** [a || b] where [a] is a string or [undefined]. *)
Definition or_else (a : option jsstring) (b : jsstring) : jsstring :=
  match a with
  | Some s => if truthy s then s else b
  | None => b
  end.

(** ECMAScript WhiteSpace and LineTerminator code points, the ones
    [String.prototype.trim] strips.  All of them are in the basic plane. *)
Definition isWhiteSpace (c : N) : bool :=
  (c =? 9) || (c =? 10) || (c =? 11) || (c =? 12) || (c =? 13) || (c =? 32)
  || (c =? 160) || (c =? 5760) || ((8192 <=? c) && (c <=? 8202))
  || (c =? 8232) || (c =? 8233) || (c =? 8239) || (c =? 8287)
  || (c =? 12288) || (c =? 65279).

Fixpoint trimStart (s : jsstring) : jsstring :=
  match s with
  | [] => []
  | c :: r => if isWhiteSpace c then trimStart r else s
  end.

Definition trimEnd (s : jsstring) : jsstring := rev (trimStart (rev s)).

Definition trim (s : jsstring) : jsstring := trimEnd (trimStart s).

(** A string that is empty or made of white space only. *)
Definition blank (s : jsstring) : bool := forallb isWhiteSpace s.

Definition digit (d : N) : N := 48 + d.

Fixpoint uint_units (u : Decimal.uint) : jsstring :=
  match u with
  | Decimal.Nil => []
  | Decimal.D0 r => digit 0 :: uint_units r
  | Decimal.D1 r => digit 1 :: uint_units r
  | Decimal.D2 r => digit 2 :: uint_units r
  | Decimal.D3 r => digit 3 :: uint_units r
  | Decimal.D4 r => digit 4 :: uint_units r
  | Decimal.D5 r => digit 5 :: uint_units r
  | Decimal.D6 r => digit 6 :: uint_units r
  | Decimal.D7 r => digit 7 :: uint_units r
  | Decimal.D8 r => digit 8 :: uint_units r
  | Decimal.D9 r => digit 9 :: uint_units r
  end.

(** [n.toString()] for a non-negative integer below 10^21: its decimal
    digits.  Clock readings are far below that bound. *)
Definition toString (n : N) : jsstring := uint_units (N.to_uint n).

End JS.

Import JS.

(** ** Data model *)

Inductive Role := user | model.

(** [interface Message]; [timestamp] is the millisecond value of the [Date]. *)
Record Message := {
  id : jsstring;
  role : Role;
  text : jsstring;
  timestamp : N
}.

(** The three [useState] cells of [App]. *)
Record AppState := {
  messages : list Message;
  input : jsstring;
  isLoading : bool
}.

(** [useState([])], [useState('')], [useState(false)]. *)
Definition initialState : AppState :=
  {| messages := []; input := []; isLoading := false |}.

(** The two clock reads of a handler run: [Date.now()] and [new Date()]. *)
Record Clock := {
  now : N;
  date : N
}.

(** *** The argument of [ai.models.generateContent] *)

Record Part := { part_text : jsstring }.

Record Content := {
  content_role : Role;
  parts : list Part
}.

Record Config := { systemInstruction : jsstring }.

Record GenerateContentParameters := {
  request_model : jsstring;
  contents : list Content;
  config : Config
}.

(** What can be thrown inside the [try] block of [handleSend]. *)
Inductive Failure :=
  | NetworkError
  | ApiError (status : N)
  | MalformedResponse.

(** How the awaited call ends: with a response whose [text] is a string or
    [undefined], or by throwing.  An exception raised inside the [try] block
    before the promise exists is the case where [Rejected] follows the send
    with no other event in between. *)
Inductive Settled :=
  | Fulfilled (response_text : option jsstring)
  | Rejected (error : Failure).

(** ** Handlers: computations over the store that may throw *)

Inductive Completion (A : Type) :=
  | Normal (a : A)
  | Throw (e : Failure).

Arguments Normal {A} a.
Arguments Throw {A} e.

Definition Handler (A : Type) : Type := AppState -> Completion A * AppState.

Definition ret {A} (a : A) : Handler A := fun st => (Normal a, st).

Definition throw {A} (e : Failure) : Handler A := fun st => (Throw e, st).

Definition bind {A B} (m : Handler A) (k : A -> Handler B) : Handler B :=
  fun st =>
    match m st with
    | (Normal a, st1) => k a st1
    | (Throw e, st1) => (Throw e, st1)
    end.

Declare Scope handler_scope.
Delimit Scope handler_scope with handler.
Notation "x <- m ;; k" := (bind m (fun x => k))
  (at level 61, m at next level, right associativity) : handler_scope.
Notation "m ;; k" := (bind m (fun _ => k))
  (at level 61, right associativity) : handler_scope.

(** [try { body } catch (error) { handler } finally { fin }]. *)
Definition try_catch_finally {A} (body : Handler A)
    (handler : Failure -> Handler A) (fin : Handler unit) : Handler A :=
  fun st =>
    let '(c, st1) :=
      match body st with
      | (Normal a, s) => (Normal a, s)
      | (Throw e, s) => handler e s
      end in
    match fin st1 with
    | (Normal _, st2) => (c, st2)
    | (Throw e, st2) => (Throw e, st2)
    end.

(** The state setters.  [setMessages] takes the updater function. *)
Definition setMessages (f : list Message -> list Message) : Handler unit :=
  fun st =>
    (Normal tt,
     {| messages := f (messages st); input := input st; isLoading := isLoading st |}).

Definition setInput (v : jsstring) : Handler unit :=
  fun st =>
    (Normal tt,
     {| messages := messages st; input := v; isLoading := isLoading st |}).

Definition setIsLoading (b : bool) : Handler unit :=
  fun st =>
    (Normal tt,
     {| messages := messages st; input := input st; isLoading := b |}).

(** The value of an awaited promise, or its rejection rethrown. *)
Definition await (s : Settled) : Handler (option jsstring) :=
  match s with
  | Fulfilled t => ret t
  | Rejected e => throw e
  end.

(** ** The component *)

Definition modelName : jsstring := utf16 "gemini-3-flash-preview".

Definition systemInstructionText : jsstring :=
  utf16 "أنت مساعد ذكي ودود ومفيد. أجب باللغة العربية بأسلوب مهذب وواضح.".

Definition fallbackText : jsstring :=
  utf16 "عذراً، لم أتمكن من معالجة طلبك.".

Definition errorText : jsstring :=
  utf16 "حدث خطأ أثناء الاتصال بالذكاء الاصطناعي. يرجى المحاولة مرة أخرى.".

(** [m => ({ role: m.role, parts: [{ text: m.text }] })]. *)
Definition toContent (m : Message) : Content :=
  {| content_role := role m; parts := [ {| part_text := text m |} ] |}.

Local Open Scope handler_scope.

(** [handleSend] up to its [await]: [render] holds the values the closure
    reads; the result is the argument of the [generateContent] call whose
    promise is awaited, or [None] after the early [return].  The client
    object and its API key are not part of that argument. *)
Definition handleSend (render : AppState) (clk : Clock)
    : Handler (option GenerateContentParameters) :=
  if negb (truthy (trim (input render))) || isLoading render then ret None
  else
    let userMessage :=
      {| id := toString (now clk);
         role := user;
         text := input render;
         timestamp := date clk |} in
    setMessages (fun prev => prev ++ [userMessage]) ;;
    setInput [] ;;
    setIsLoading true ;;
    ret (Some
      {| request_model := modelName;
         contents := map toContent (messages render ++ [userMessage]);
         config := {| systemInstruction := systemInstructionText |} |}).

(** [handleSend] from the point where the awaited promise settles: the rest
    of the [try] block, the [catch] block and the [finally] block. *)
Definition handleSend_resume (settled : Settled) (clk : Clock) : Handler unit :=
  try_catch_finally
    (response_text <- await settled ;;
     let aiMessage :=
       {| id := toString (now clk + 1);
          role := model;
          text := or_else response_text fallbackText;
          timestamp := date clk |} in
     setMessages (fun prev => prev ++ [aiMessage]))
    (fun error =>
     let errorMessage :=
       {| id := toString (now clk + 1);
          role := model;
          text := errorText;
          timestamp := date clk |} in
     setMessages (fun prev => prev ++ [errorMessage]))
    (setIsLoading false).

(** [clearChat]. *)
Definition clearChat : Handler unit := setMessages (fun _ => []).

(** The [disabled] attribute of the send button; the text field has no
    [disabled] attribute. *)
Definition sendButton_disabled (st : AppState) : bool :=
  negb (truthy (trim (input st))) || isLoading st.

Definition textField_disabled (st : AppState) : bool := false.

(** ** The event loop *)

(** What exists besides the store: the requests whose promise has not
    settled yet, oldest first, and the exceptions that left a handler
    uncaught. *)
Record World := {
  ui : AppState;
  inflight : list GenerateContentParameters;
  uncaught : list Failure
}.

Definition initialWorld : World :=
  {| ui := initialState; inflight := []; uncaught := [] |}.

Inductive Event :=
  | Change (value : jsstring)
  | KeyDown (key : jsstring) (clk : Clock)
  | ClickSend (clk : Clock)
  | ClickClear
  | Settle (settled : Settled) (clk : Clock).

(** A call of [handleSend] from the handlers of the latest render. *)
Definition callHandleSend (w : World) (clk : Clock) : World :=
  match handleSend (ui w) clk (ui w) with
  | (Normal (Some request), st) =>
      {| ui := st; inflight := inflight w ++ [request]; uncaught := uncaught w |}
  | (Normal None, st) =>
      {| ui := st; inflight := inflight w; uncaught := uncaught w |}
  | (Throw e, st) =>
      {| ui := st; inflight := inflight w; uncaught := uncaught w ++ [e] |}
  end.

(** One event.  [Change] is [onChange={(e) => setInput(e.target.value)}];
    [KeyDown] is [onKeyDown={(e) => e.key === 'Enter' && handleSend()}];
    a click on the send button reaches [handleSend] unless the button is
    disabled; [Settle] resumes the oldest suspended [handleSend] and is not
    possible when none is suspended. *)
Definition step (w : World) (ev : Event) : option World :=
  match ev with
  | Change value =>
      Some {| ui := snd (setInput value (ui w));
              inflight := inflight w; uncaught := uncaught w |}
  | KeyDown key clk =>
      if JS.eqb key (utf16 "Enter") then Some (callHandleSend w clk) else Some w
  | ClickSend clk =>
      if sendButton_disabled (ui w) then Some w else Some (callHandleSend w clk)
  | ClickClear =>
      Some {| ui := snd (clearChat (ui w));
              inflight := inflight w; uncaught := uncaught w |}
  | Settle settled clk =>
      match inflight w with
      | [] => None
      | _ :: rest =>
          match handleSend_resume settled clk (ui w) with
          | (Normal _, st) =>
              Some {| ui := st; inflight := rest; uncaught := uncaught w |}
          | (Throw e, st) =>
              Some {| ui := st; inflight := rest; uncaught := uncaught w ++ [e] |}
          end
      end
  end.

Fixpoint run (w : World) (evs : list Event) : option World :=
  match evs with
  | [] => Some w
  | ev :: rest =>
      match step w ev with
      | Some w1 => run w1 rest
      | None => None
      end
  end.

(** No request is awaited and none is announced by [isLoading]. *)
Definition idle (w : World) : Prop :=
  isLoading (ui w) = false /\ inflight w = [].

(** One complete exchange: the user types [draft] and presses Enter, and
    the request then settles with [outcome]. *)
Record Exchange := {
  draft : jsstring;
  sentAt : Clock;
  outcome : Settled;
  settledAt : Clock
}.

Definition exchange_events (x : Exchange) : list Event :=
  [Change (draft x); KeyDown (utf16 "Enter") (sentAt x);
   Settle (outcome x) (settledAt x)].

(** The message [handleSend] creates for the draft. *)
Definition userMessageOf (v : jsstring) (clk : Clock) : Message :=
  {| id := toString (now clk); role := user; text := v; timestamp := date clk |}.

(** The message [handleSend] appends when the request has settled. *)
Definition replyMessageOf (s : Settled) (clk : Clock) : Message :=
  {| id := toString (now clk + 1);
     role := model;
     text := match s with
             | Fulfilled t => or_else t fallbackText
             | Rejected _ => errorText
             end;
     timestamp := date clk |}.

Definition exchange_messages (x : Exchange) : list Message :=
  [userMessageOf (draft x) (sentAt x); replyMessageOf (outcome x) (settledAt x)].

(** A send attempt: Enter in the text field or a click on the send button. *)
Definition sendAttempt (clk : Clock) (ev : Event) : Prop :=
  ev = KeyDown (utf16 "Enter") clk \/ ev = ClickSend clk.

(** Every reachable world is of one of two kinds: idle, or loading with
    exactly one request in flight. *)
Definition consistent (w : World) : Prop :=
  idle w \/ (isLoading (ui w) = true /\ exists r, inflight w = [r]).

(** ** Sample data for the scenarios *)

Definition clockA : Clock := {| now := 1700000000000; date := 1700000000000 |}.

Definition clockB : Clock := {| now := 1700000001500; date := 1700000001501 |}.

Definition helloExchange : Exchange :=
  {| draft := utf16 "hello"; sentAt := clockA;
     outcome := Fulfilled (Some (utf16 "hi there")); settledAt := clockB |}.

Definition failedExchange : Exchange :=
  {| draft := utf16 "test"; sentAt := clockA;
     outcome := Rejected NetworkError; settledAt := clockB |}.

Definition noTextExchange : Exchange :=
  {| draft := utf16 "test"; sentAt := clockA;
     outcome := Fulfilled None; settledAt := clockB |}.

(** The world while the request for "hello" is awaited. *)
Definition helloPending : World :=
  {| ui := {| messages := [userMessageOf (utf16 "hello") clockA];
              input := [];
              isLoading := true |};
     inflight :=
       [{| request_model := modelName;
           contents := [{| content_role := user;
                           parts := [{| part_text := utf16 "hello" |}] |}];
           config := {| systemInstruction := systemInstructionText |} |}];
     uncaught := [] |}.

(** The world after the "hello" exchange, with a new draft typed. *)
Definition followUpWorld : World :=
  {| ui := {| messages := exchange_messages helloExchange;
              input := utf16 "and you?";
              isLoading := false |};
     inflight := [];
     uncaught := [] |}.

Definition followUpRequest : GenerateContentParameters :=
  {| request_model := modelName;
     contents :=
       [{| content_role := user; parts := [{| part_text := utf16 "hello" |}] |};
        {| content_role := model; parts := [{| part_text := utf16 "hi there" |}] |};
        {| content_role := user; parts := [{| part_text := utf16 "and you?" |}] |}];
     config := {| systemInstruction := systemInstructionText |} |}.

Definition followUpPending : World :=
  {| ui := {| messages :=
                exchange_messages helloExchange ++
                [userMessageOf (utf16 "and you?") clockB];
              input := [];
              isLoading := true |};
     inflight := [followUpRequest];
     uncaught := [] |}.

(** ** What [App] renders *)

Inductive Icon := UserIcon | BotIcon.

(** One element of [messages.map(...)]: its [key], the class string and
    the icon the role selects, the source given to [Markdown], and the
    [Date] that is formatted for display. *)
Record Bubble := {
  bubble_key : jsstring;
  bubble_rowClass : jsstring;
  bubble_avatarClass : jsstring;
  bubble_icon : Icon;
  bubble_bodyClass : jsstring;
  bubble_markdown : jsstring;
  bubble_timeClass : jsstring;
  bubble_time : N
}.

Definition renderMessage (message : Message) : Bubble :=
  {| bubble_key := id message;
     bubble_rowClass :=
       match role message with
       | user => utf16 "mr-auto flex-row-reverse"
       | model => utf16 "ml-auto"
       end;
     bubble_avatarClass :=
       match role message with
       | user => utf16 "bg-indigo-500"
       | model => utf16 "bg-emerald-500"
       end;
     bubble_icon :=
       match role message with user => UserIcon | model => BotIcon end;
     bubble_bodyClass :=
       match role message with
       | user => utf16 "bg-indigo-600 text-white rounded-tr-none"
       | model =>
           utf16 "bg-white text-[#1A1A1A] border border-black/5 rounded-tl-none"
       end;
     bubble_markdown := text message;
     bubble_timeClass :=
       match role message with
       | user => utf16 "text-right"
       | model => utf16 "text-left"
       end;
     bubble_time := timestamp message |}.

(** The chat area: the welcome panel when [messages.length === 0],
    otherwise the bubbles followed by the loading indicator when
    [isLoading]. *)
Inductive Main :=
  | Welcome
  | Chat (bubbles : list Bubble) (loadingIndicator : bool).

(** The parts of the rendered tree that depend on the state. *)
Record View := {
  main : Main;
  field_value : jsstring;
  send_disabled : bool;
  send_class : jsstring
}.

Definition sendActiveClass : jsstring :=
  utf16 "bg-emerald-500 text-white shadow-lg shadow-emerald-500/20 hover:scale-105 active:scale-95".

Definition sendInactiveClass : jsstring :=
  utf16 "bg-black/10 text-black/20 cursor-not-allowed".

Definition render (st : AppState) : View :=
  {| main :=
       if Nat.eqb (length (messages st)) 0 then Welcome
       else Chat (map renderMessage (messages st)) (isLoading st);
     field_value := input st;
     send_disabled := negb (truthy (trim (input st))) || isLoading st;
     send_class :=
       if truthy (trim (input st)) && negb (isLoading st)
       then sendActiveClass else sendInactiveClass |}.

(** Whether the loading indicator is on screen. *)
Definition showsLoading (v : View) : bool :=
  match main v with
  | Welcome => false
  | Chat _ loadingIndicator => loadingIndicator
  end.

(** ** Predicates on conversations and event sequences *)

Definition Role_eqb (a b : Role) : bool :=
  match a, b with
  | user, user | model, model => true
  | _, _ => false
  end.

(** No two neighbours have the same role. *)
Fixpoint alternating (rs : list Role) : bool :=
  match rs with
  | a :: (b :: _) as rest => negb (Role_eqb a b) && alternating rest
  | _ => true
  end.

(** The role of the last element, if there is one. *)
Definition lastRole (rs : list Role) : option Role :=
  last (map Some rs) None.

(** A user message has a text that is not blank, a model message a text
    that is not empty. *)
Definition hasContent (m : Message) : Prop :=
  match role m with
  | user => blank (text m) = false
  | model => text m <> []
  end.

Definition isClear (ev : Event) : bool :=
  match ev with ClickClear => true | _ => false end.

(** Events that neither type nor send: a click on the trash button or the
    settling of the request. *)
Definition keepsDraft (ev : Event) : bool :=
  match ev with
  | ClickClear | Settle _ _ => true
  | _ => false
  end.


(** Roles alternate, and the last message, if any, is the user's while a
    request is pending and the model's otherwise. *)
Definition turnTaking (st : AppState) : Prop :=
  alternating (map role (messages st)) = true /\
  (messages st = [] \/
   lastRole (map role (messages st)) =
     Some (if isLoading st then user else model)).


(** * Properties *)

(** ** Strings *)

Example utf16_hello : utf16 "hello" = [104; 101; 108; 108; 111].
Proof. reflexivity. Qed.

Example utf16_arabic : utf16 "أنت" = [1571; 1606; 1578].
Proof. reflexivity. Qed.

Example toString_clock : toString 1700000000000 = utf16 "1700000000000".
Proof. reflexivity. Qed.

Example toString_zero : toString 0 = utf16 "0".
Proof. reflexivity. Qed.

Example trim_both_ends : trim (utf16 "  hi there  ") = utf16 "hi there".
Proof. reflexivity. Qed.

Example trim_tab_newline : trim [9; 10; 160; 12288] = [].
Proof. reflexivity. Qed.

Lemma eqb_eq (a b : jsstring) : JS.eqb a b = true <-> a = b.
Proof.
  unfold JS.eqb. destruct (list_eq_dec N.eq_dec a b); split; congruence.
Qed.

Lemma blank_app (s t : jsstring) : blank (s ++ t) = blank s && blank t.
Proof. unfold blank. apply forallb_app. Qed.

Lemma blank_rev (s : jsstring) : blank (rev s) = blank s.
Proof.
  induction s as [|c r IH]; simpl; [reflexivity|].
  rewrite blank_app, IH. simpl. rewrite andb_true_r. apply andb_comm.
Qed.

Lemma trimStart_nil_iff (s : jsstring) : trimStart s = [] <-> blank s = true.
Proof.
  induction s as [|c r IH]; simpl.
  - split; reflexivity.
  - destruct (isWhiteSpace c); simpl; [exact IH|].
    split; discriminate.
Qed.

(** What [trimStart] leaves is blank only if nothing is left. *)
Lemma blank_trimStart (s : jsstring) : blank (trimStart s) = blank s.
Proof.
  induction s as [|c r IH]; simpl; [reflexivity|].
  destruct (isWhiteSpace c) eqn:E; simpl; [exact IH|].
  rewrite E. reflexivity.
Qed.

Lemma rev_nil_iff {A} (l : list A) : rev l = [] <-> l = [].
Proof.
  split; intros H; [|subst; reflexivity].
  rewrite <- (rev_involutive l), H. reflexivity.
Qed.

Lemma trim_nil_iff (s : jsstring) : trim s = [] <-> blank s = true.
Proof.
  unfold trim, trimEnd.
  split; intros H.
  - apply rev_nil_iff, trimStart_nil_iff in H.
    rewrite blank_rev, blank_trimStart in H. exact H.
  - apply rev_nil_iff, trimStart_nil_iff.
    rewrite blank_rev, blank_trimStart. exact H.
Qed.

(** [!s.trim()] holds exactly for the blank strings. *)
Lemma not_trim_blank (s : jsstring) : negb (truthy (trim s)) = blank s.
Proof.
  destruct (blank s) eqn:E.
  - apply trim_nil_iff in E. rewrite E. reflexivity.
  - destruct (trim s) eqn:T; [|reflexivity].
    apply trim_nil_iff in T. congruence.
Qed.

Lemma blank_nil : blank [] = true.
Proof. reflexivity. Qed.

(** ** The handlers *)

Lemma handleSend_blocked (render : AppState) (clk : Clock) (st : AppState) :
  blank (input render) = true \/ isLoading render = true ->
  handleSend render clk st = (Normal None, st).
Proof.
  intros H. unfold handleSend. rewrite not_trim_blank.
  destruct H as [H | H]; rewrite H; [|rewrite orb_true_r]; reflexivity.
Qed.

Lemma handleSend_dispatch (render : AppState) (clk : Clock) (st : AppState) :
  blank (input render) = false -> isLoading render = false ->
  handleSend render clk st =
    (Normal (Some
       {| request_model := modelName;
          contents :=
            map toContent (messages render ++ [userMessageOf (input render) clk]);
          config := {| systemInstruction := systemInstructionText |} |}),
     {| messages := messages st ++ [userMessageOf (input render) clk];
        input := [];
        isLoading := true |}).
Proof.
  intros Hb Hl. unfold handleSend. rewrite not_trim_blank, Hb, Hl.
  reflexivity.
Qed.

(** The continuation always completes normally: whatever the [try] block
    throws is caught, and the [catch] and [finally] blocks only call
    setters. *)
Lemma handleSend_resume_eq (s : Settled) (clk : Clock) (st : AppState) :
  handleSend_resume s clk st =
    (Normal tt,
     {| messages := messages st ++ [replyMessageOf s clk];
        input := input st;
        isLoading := false |}).
Proof. destruct s; reflexivity. Qed.

Lemma handleSend_never_throws (render : AppState) (clk : Clock) (st : AppState) :
  exists r st', handleSend render clk st = (Normal r, st').
Proof.
  unfold handleSend.
  destruct (negb (truthy (trim (input render))) || isLoading render);
    eexists; eexists; reflexivity.
Qed.

Lemma callHandleSend_blocked (w : World) (clk : Clock) :
  blank (input (ui w)) = true \/ isLoading (ui w) = true ->
  callHandleSend w clk = w.
Proof.
  intros H. unfold callHandleSend. rewrite (handleSend_blocked _ _ _ H).
  destruct w; reflexivity.
Qed.

Lemma callHandleSend_dispatch (w : World) (clk : Clock) :
  blank (input (ui w)) = false -> isLoading (ui w) = false ->
  callHandleSend w clk =
    {| ui := {| messages := messages (ui w) ++ [userMessageOf (input (ui w)) clk];
                input := [];
                isLoading := true |};
       inflight := inflight w ++
         [{| request_model := modelName;
             contents :=
               map toContent
                 (messages (ui w) ++ [userMessageOf (input (ui w)) clk]);
             config := {| systemInstruction := systemInstructionText |} |}];
       uncaught := uncaught w |}.
Proof.
  intros Hb Hl. unfold callHandleSend.
  rewrite (handleSend_dispatch _ _ _ Hb Hl). reflexivity.
Qed.

Lemma sendButton_disabled_blocked (st : AppState) :
  sendButton_disabled st = blank (input st) || isLoading st.
Proof. unfold sendButton_disabled. rewrite not_trim_blank. reflexivity. Qed.

Lemma step_Enter (w : World) (clk : Clock) :
  step w (KeyDown (utf16 "Enter") clk) = Some (callHandleSend w clk).
Proof. reflexivity. Qed.

Lemma step_ClickSend_enabled (w : World) (clk : Clock) :
  blank (input (ui w)) = false -> isLoading (ui w) = false ->
  step w (ClickSend clk) = Some (callHandleSend w clk).
Proof.
  intros Hb Hl. simpl. rewrite sendButton_disabled_blocked, Hb, Hl. reflexivity.
Qed.

Lemma step_Settle (w : World) (s : Settled) (clk : Clock)
    (r : GenerateContentParameters) (rest : list GenerateContentParameters) :
  inflight w = r :: rest ->
  step w (Settle s clk) =
    Some {| ui := {| messages := messages (ui w) ++ [replyMessageOf s clk];
                     input := input (ui w);
                     isLoading := false |};
            inflight := rest;
            uncaught := uncaught w |}.
Proof.
  intros H. simpl. rewrite H, handleSend_resume_eq. reflexivity.
Qed.

Lemma sendAttempt_blocked (w : World) (clk : Clock) (ev : Event) :
  sendAttempt clk ev ->
  blank (input (ui w)) = true \/ isLoading (ui w) = true ->
  step w ev = Some w.
Proof.
  intros [-> | ->] H.
  - rewrite step_Enter, (callHandleSend_blocked _ _ H). reflexivity.
  - simpl. rewrite sendButton_disabled_blocked.
    destruct H as [H | H]; rewrite H; [|rewrite orb_true_r]; reflexivity.
Qed.

(** ** Send attempts that are ignored *)

(** C4.  While a request is pending ([isLoading] is true), a send attempt,
    by Enter or by a click on the send button, is a no-op: the world after
    the event is the world before it; the conversation, its length and the
    pending flag are unchanged and no request is dispatched. *)
Theorem send_while_pending_noop (w : World) (clk : Clock) (ev : Event) :
  isLoading (ui w) = true ->
  sendAttempt clk ev ->
  exists w',
    step w ev = Some w' /\
    length (messages (ui w')) = length (messages (ui w)) /\
    isLoading (ui w') = isLoading (ui w) /\
    w' = w.
Proof.
  intros Hl Hev. exists w.
  rewrite (sendAttempt_blocked w clk ev Hev (or_intror Hl)). auto.
Qed.

(** C5.  When the draft is empty or white space only, a send attempt
    appends no message, leaves [isLoading] as it was (so it never becomes
    true by it) and dispatches no request. *)
Theorem send_blank_draft_noop (w : World) (clk : Clock) (ev : Event) :
  blank (input (ui w)) = true ->
  sendAttempt clk ev ->
  exists w',
    step w ev = Some w' /\
    messages (ui w') = messages (ui w) /\
    isLoading (ui w') = isLoading (ui w) /\
    inflight w' = inflight w.
Proof.
  intros Hb Hev. exists w.
  rewrite (sendAttempt_blocked w clk ev Hev (or_introl Hb)). auto.
Qed.

(** ** The send button *)

(** C6.  The send control (the button that carries the [disabled]
    attribute) is disabled exactly when a request is pending or the draft is
    empty or white space only. *)
Theorem sendButton_disabled_iff (st : AppState) :
  sendButton_disabled st = true <->
  isLoading st = true \/ blank (input st) = true.
Proof.
  rewrite sendButton_disabled_blocked.
  destruct (blank (input st)), (isLoading st); simpl; intuition congruence.
Qed.

(** The text field itself is never disabled: the user can type, and press
    Enter, while a request is pending. *)
Lemma textField_never_disabled (st : AppState) : textField_disabled st = false.
Proof. reflexivity. Qed.

(** ** Clearing *)

(** C9.  From every world a click on the trash button yields a conversation
    of length 0, and a second click changes nothing more. *)
Theorem clear_empties_idempotent (w : World) :
  exists w1,
    step w ClickClear = Some w1 /\
    length (messages (ui w1)) = 0%nat /\
    step w1 ClickClear = Some w1.
Proof.
  eexists. split; [reflexivity|]. split; reflexivity.
Qed.

Lemma clearChat_idempotent (st : AppState) :
  snd (clearChat (snd (clearChat st))) = snd (clearChat st).
Proof. reflexivity. Qed.

(** ** The reply text *)

Lemma fallbackText_not_empty : fallbackText <> [].
Proof. discriminate. Qed.

(** C10.  When the response's [text] is present but the empty string, the
    model message appended by the continuation of [handleSend] carries the
    fallback text, as it does when [text] is absent: the fallback replaces
    every falsy [text]. *)
Theorem empty_text_gets_fallback (st : AppState) (clk : Clock)
    (t : option jsstring) :
  t = Some [] \/ t = None ->
  handleSend_resume (Fulfilled t) clk st =
    (Normal tt,
     {| messages := messages st ++
          [{| id := toString (now clk + 1);
              role := model;
              text := fallbackText;
              timestamp := date clk |}];
        input := input st;
        isLoading := false |}).
Proof. intros [-> | ->]; reflexivity. Qed.

Lemma empty_text_gets_fallback_witness :
  handleSend_resume (Fulfilled (Some [])) {| now := 1700000000000; date := 1700000000000 |}
      {| messages := [userMessageOf (utf16 "test") {| now := 1699999999000; date := 1699999999000 |}];
         input := [];
         isLoading := true |} =
    (Normal tt,
     {| messages :=
          [userMessageOf (utf16 "test") {| now := 1699999999000; date := 1699999999000 |}] ++
          [{| id := toString (1700000000000 + 1);
              role := model;
              text := fallbackText;
              timestamp := 1700000000000 |}];
        input := [];
        isLoading := false |}).
Proof.
  apply (empty_text_gets_fallback
           {| messages := [userMessageOf (utf16 "test") {| now := 1699999999000; date := 1699999999000 |}];
              input := [];
              isLoading := true |}
           {| now := 1700000000000; date := 1700000000000 |} (Some [])).
  left. reflexivity.
Defined.

(** ** Complete exchanges *)

Lemma run_app (w : World) (evs1 evs2 : list Event) :
  run w (evs1 ++ evs2) =
    match run w evs1 with
    | Some w1 => run w1 evs2
    | None => None
    end.
Proof.
  revert w. induction evs1 as [|ev evs1 IH]; intros w; simpl; [reflexivity|].
  destruct (step w ev); [apply IH | reflexivity].
Qed.

(** The user types a draft that is not blank and sends it while idle: the
    user message is appended at once, the draft is emptied, [isLoading] is
    set and one request is in flight. *)
Lemma run_type_and_send (w : World) (v : jsstring) (clk : Clock) (ev : Event) :
  idle w -> blank v = false -> sendAttempt clk ev ->
  run w [Change v; ev] =
    Some {| ui := {| messages := messages (ui w) ++ [userMessageOf v clk];
                     input := [];
                     isLoading := true |};
            inflight :=
              [{| request_model := modelName;
                  contents :=
                    map toContent (messages (ui w) ++ [userMessageOf v clk]);
                  config := {| systemInstruction := systemInstructionText |} |}];
            uncaught := uncaught w |}.
Proof.
  intros [Hl Hi] Hb Hev.
  cbn [run step setInput snd].
  set (w1 := {| ui := {| messages := messages (ui w); input := v;
                         isLoading := isLoading (ui w) |};
                inflight := inflight w; uncaught := uncaught w |}).
  assert (H1 : step w1 ev = Some (callHandleSend w1 clk)).
  { destruct Hev as [-> | ->];
      [apply step_Enter | apply step_ClickSend_enabled; assumption]. }
  rewrite H1, callHandleSend_dispatch by assumption.
  cbn [w1 ui input messages inflight uncaught]. rewrite Hi. reflexivity.
Qed.

Lemma run_exchange (w : World) (x : Exchange) :
  idle w -> blank (draft x) = false ->
  run w (exchange_events x) =
    Some {| ui := {| messages := messages (ui w) ++ exchange_messages x;
                     input := [];
                     isLoading := false |};
            inflight := [];
            uncaught := uncaught w |}.
Proof.
  intros Hidle Hb. unfold exchange_events.
  change [Change (draft x); KeyDown (utf16 "Enter") (sentAt x);
          Settle (outcome x) (settledAt x)]
    with ([Change (draft x); KeyDown (utf16 "Enter") (sentAt x)]
          ++ [Settle (outcome x) (settledAt x)]).
  rewrite run_app,
    (run_type_and_send w _ _ _ Hidle Hb (or_introl eq_refl)).
  cbn [run]. erewrite step_Settle by reflexivity.
  cbn [ui messages input uncaught]. rewrite <- app_assoc. reflexivity.
Qed.

Lemma exchange_roles (xs : list Exchange) :
  map role (flat_map exchange_messages xs) =
  concat (repeat [user; model] (length xs)).
Proof.
  induction xs as [|x xs IH]; simpl; [reflexivity|].
  rewrite IH. reflexivity.
Qed.

Lemma exchange_length (xs : list Exchange) :
  length (flat_map exchange_messages xs) = (2 * length xs)%nat.
Proof.
  induction xs as [|x xs IH]; simpl; [reflexivity|].
  rewrite IH. lia.
Qed.

Lemma run_exchanges (xs : list Exchange) :
  forall w : World,
  idle w ->
  Forall (fun x => blank (draft x) = false) xs ->
  exists w',
    run w (flat_map exchange_events xs) = Some w' /\
    idle w' /\
    uncaught w' = uncaught w /\
    messages (ui w') = messages (ui w) ++ flat_map exchange_messages xs.
Proof.
  induction xs as [|x xs IH]; intros w Hidle Hall.
  - exists w. simpl. rewrite app_nil_r. auto.
  - inversion Hall as [|? ? Hx Hxs]; subst.
    cbn [flat_map]. rewrite run_app, (run_exchange w x Hidle Hx).
    destruct (IH {| ui := {| messages := messages (ui w) ++ exchange_messages x;
                            input := [];
                            isLoading := false |};
                   inflight := [];
                   uncaught := uncaught w |}) as (w' & Hrun & Hidle' & Hunc & Hmsg);
      [split; reflexivity | exact Hxs |].
    exists w'. cbn [ui messages uncaught] in Hmsg, Hunc.
    repeat split; try assumption; try apply Hidle'.
    rewrite Hmsg, <- app_assoc. reflexivity.
Qed.

(** C1.  From an idle world with any conversation, N exchanges (a draft
    that is not blank is sent and its request settles, with a response or
    with a failure) leave the conversation longer by 2N: each exchange
    appends one user message and then one model message, which carries the
    reply, the fallback or the error text.  This holds when all N succeed,
    when all N fail, and for every mix. *)
Theorem exchanges_grow_by_two (w : World) (xs : list Exchange) :
  idle w ->
  Forall (fun x => blank (draft x) = false) xs ->
  exists w',
    run w (flat_map exchange_events xs) = Some w' /\
    length (messages (ui w')) = (length (messages (ui w)) + 2 * length xs)%nat /\
    messages (ui w') = messages (ui w) ++ flat_map exchange_messages xs /\
    map role (flat_map exchange_messages xs) =
      concat (repeat [user; model] (length xs)) /\
    idle w'.
Proof.
  intros Hidle Hall.
  destruct (run_exchanges xs w Hidle Hall) as (w' & Hrun & Hidle' & _ & Hmsg).
  exists w'. repeat split; try assumption; try apply Hidle'.
  - rewrite Hmsg, length_app, exchange_length. reflexivity.
  - apply exchange_roles.
Qed.

(** ** Scenarios of the specification *)

Example scenario_hello_pending :
  run initialWorld [Change (utf16 "hello"); KeyDown (utf16 "Enter") clockA] =
    Some helloPending.
Proof. reflexivity. Qed.

Example scenario_hello_success :
  run initialWorld (exchange_events helloExchange) =
    Some {| ui := {| messages :=
                       [{| id := utf16 "1700000000000"; role := user;
                           text := utf16 "hello"; timestamp := 1700000000000 |};
                        {| id := utf16 "1700000001501"; role := model;
                           text := utf16 "hi there"; timestamp := 1700000001501 |}];
                     input := [];
                     isLoading := false |};
            inflight := [];
            uncaught := [] |}.
Proof. reflexivity. Qed.

Example scenario_failure :
  option_map (fun w => (map text (messages (ui w)), isLoading (ui w)))
    (run initialWorld (exchange_events failedExchange)) =
    Some ([utf16 "test"; errorText], false).
Proof. reflexivity. Qed.

Example scenario_no_text :
  option_map (fun w => map text (messages (ui w)))
    (run initialWorld (exchange_events noTextExchange)) =
    Some [utf16 "test"; fallbackText].
Proof. reflexivity. Qed.

Lemma exchanges_grow_by_two_witness :
  exists w',
    run initialWorld (flat_map exchange_events [helloExchange; failedExchange]) =
      Some w' /\
    length (messages (ui w')) =
      (length (messages (ui initialWorld)) + 2 * length [helloExchange; failedExchange])%nat /\
    messages (ui w') =
      messages (ui initialWorld) ++
      flat_map exchange_messages [helloExchange; failedExchange] /\
    map role (flat_map exchange_messages [helloExchange; failedExchange]) =
      concat (repeat [user; model] (length [helloExchange; failedExchange])) /\
    idle w'.
Proof.
  apply (exchanges_grow_by_two initialWorld [helloExchange; failedExchange]).
  - split; reflexivity.
  - repeat constructor.
Defined.

Lemma send_while_pending_noop_witness :
  exists w',
    step helloPending (KeyDown (utf16 "Enter") clockB) = Some w' /\
    length (messages (ui w')) = length (messages (ui helloPending)) /\
    isLoading (ui w') = isLoading (ui helloPending) /\
    w' = helloPending.
Proof.
  apply (send_while_pending_noop helloPending clockB
           (KeyDown (utf16 "Enter") clockB)).
  - reflexivity.
  - left. reflexivity.
Defined.

Lemma send_blank_draft_noop_witness :
  exists w',
    step {| ui := {| messages := []; input := utf16 "   "; isLoading := false |};
            inflight := []; uncaught := [] |}
         (KeyDown (utf16 "Enter") clockA) = Some w' /\
    messages (ui w') = [] /\
    isLoading (ui w') = false /\
    inflight w' = [].
Proof.
  apply (send_blank_draft_noop
           {| ui := {| messages := []; input := utf16 "   "; isLoading := false |};
              inflight := []; uncaught := [] |}
           clockA (KeyDown (utf16 "Enter") clockA)).
  - reflexivity.
  - left. reflexivity.
Defined.

(** ** A send that succeeds *)

(** C2, as stated, fails when the response's [text] is present but empty:
    the appended message then carries the fallback text and not the
    response's text.  The input is the draft "test" sent from the initial
    world and answered by a response whose [text] is [''].  *)
Lemma reply_text_or_absent_fallback_fails :
  ~ (forall (w : World) (v : jsstring) (clk clk' : Clock) (t : option jsstring),
       idle w -> blank v = false ->
       exists w' m,
         run w [Change v; KeyDown (utf16 "Enter") clk; Settle (Fulfilled t) clk']
           = Some w' /\
         messages (ui w') = messages (ui w) ++ [userMessageOf v clk; m] /\
         role m = model /\
         text m = match t with Some s => s | None => fallbackText end /\
         isLoading (ui w') = false).
Proof.
  intros H.
  destruct (H initialWorld (utf16 "test") clockA clockB (Some []))
    as (w' & m & Hrun & Hmsg & _ & Htext & _);
    [split; reflexivity | reflexivity |].
  vm_compute in Hrun. injection Hrun as <-.
  cbn [ui messages initialWorld initialState app] in Hmsg.
  apply (f_equal (fun l => map text (tl l))) in Hmsg.
  cbn [tl map text] in Hmsg. rewrite Htext in Hmsg. discriminate Hmsg.
Qed.

(** C2, amended.  A draft that is not blank, sent while idle: the user
    message is appended and [isLoading] is true while the request is
    awaited; when the call then succeeds, exactly one model message is
    appended, whose text is the response's text when that text is present
    and not empty and the fallback text when it is absent or empty, and
    [isLoading] is false afterwards. *)
Theorem send_success_appends_reply (w : World) (v : jsstring)
    (clk clk' : Clock) (ev : Event) (t : option jsstring) :
  idle w -> blank v = false -> sendAttempt clk ev ->
  exists w1 w2,
    run w [Change v; ev] = Some w1 /\
    messages (ui w1) = messages (ui w) ++ [userMessageOf v clk] /\
    isLoading (ui w1) = true /\
    step w1 (Settle (Fulfilled t) clk') = Some w2 /\
    messages (ui w2) =
      messages (ui w1) ++
      [{| id := toString (now clk' + 1);
          role := model;
          text := match t with
                  | Some (c :: s) => c :: s
                  | Some [] | None => fallbackText
                  end;
          timestamp := date clk' |}] /\
    isLoading (ui w2) = false /\
    inflight w2 = [].
Proof.
  intros Hidle Hb Hev.
  eexists. eexists.
  split; [apply (run_type_and_send w v clk ev Hidle Hb Hev)|].
  split; [reflexivity|]. split; [reflexivity|].
  split; [erewrite step_Settle by reflexivity; reflexivity|].
  cbn [ui messages isLoading inflight].
  repeat split. destruct t as [[|c s]|]; reflexivity.
Qed.

Lemma send_success_appends_reply_witness :
  exists w1 w2,
    run initialWorld [Change (utf16 "hello"); ClickSend clockA] = Some w1 /\
    messages (ui w1) =
      messages (ui initialWorld) ++ [userMessageOf (utf16 "hello") clockA] /\
    isLoading (ui w1) = true /\
    step w1 (Settle (Fulfilled (Some (utf16 "hi there"))) clockB) = Some w2 /\
    messages (ui w2) =
      messages (ui w1) ++
      [{| id := toString (now clockB + 1);
          role := model;
          text := utf16 "hi there";
          timestamp := date clockB |}] /\
    isLoading (ui w2) = false /\
    inflight w2 = [].
Proof.
  apply (send_success_appends_reply initialWorld (utf16 "hello") clockA clockB
           (ClickSend clockA) (Some (utf16 "hi there"))).
  - split; reflexivity.
  - reflexivity.
  - right. reflexivity.
Defined.

(** ** A send that fails *)

(** C3.  A draft that is not blank, sent while idle, whose remote call
    fails for whatever reason: exactly one message is appended after the
    user message, in the model role and with the fixed error text; the
    continuation of [handleSend] completes normally, so nothing is thrown
    past it; and [isLoading] is false when it returns. *)
Theorem send_failure_appends_error (w : World) (v : jsstring)
    (clk clk' : Clock) (ev : Event) (e : Failure) :
  idle w -> blank v = false -> sendAttempt clk ev ->
  exists w1 w2,
    run w [Change v; ev] = Some w1 /\
    step w1 (Settle (Rejected e) clk') = Some w2 /\
    messages (ui w2) =
      messages (ui w) ++
      [userMessageOf v clk;
       {| id := toString (now clk' + 1);
          role := model;
          text := errorText;
          timestamp := date clk' |}] /\
    fst (handleSend_resume (Rejected e) clk' (ui w1)) = Normal tt /\
    uncaught w2 = uncaught w /\
    isLoading (ui w2) = false /\
    inflight w2 = [].
Proof.
  intros Hidle Hb Hev.
  eexists. eexists.
  split; [apply (run_type_and_send w v clk ev Hidle Hb Hev)|].
  split; [erewrite step_Settle by reflexivity; reflexivity|].
  cbn [ui messages isLoading inflight uncaught].
  rewrite <- app_assoc. repeat split.
Qed.

Lemma send_failure_appends_error_witness :
  exists w1 w2,
    run initialWorld [Change (utf16 "test"); KeyDown (utf16 "Enter") clockA]
      = Some w1 /\
    step w1 (Settle (Rejected MalformedResponse) clockB) = Some w2 /\
    messages (ui w2) =
      messages (ui initialWorld) ++
      [userMessageOf (utf16 "test") clockA;
       {| id := toString (now clockB + 1);
          role := model;
          text := errorText;
          timestamp := date clockB |}] /\
    fst (handleSend_resume (Rejected MalformedResponse) clockB (ui w1)) =
      Normal tt /\
    uncaught w2 = uncaught initialWorld /\
    isLoading (ui w2) = false /\
    inflight w2 = [].
Proof.
  apply (send_failure_appends_error initialWorld (utf16 "test") clockA clockB
           (KeyDown (utf16 "Enter") clockA) MalformedResponse).
  - split; reflexivity.
  - reflexivity.
  - left. reflexivity.
Defined.

(** ** Reachable worlds *)

Lemma initialWorld_consistent : consistent initialWorld.
Proof. left. split; reflexivity. Qed.

Lemma callHandleSend_cases (w : World) (clk : Clock) :
  callHandleSend w clk = w \/
  (blank (input (ui w)) = false /\ isLoading (ui w) = false /\
   callHandleSend w clk =
     {| ui := {| messages := messages (ui w) ++ [userMessageOf (input (ui w)) clk];
                 input := [];
                 isLoading := true |};
        inflight := inflight w ++
          [{| request_model := modelName;
              contents :=
                map toContent
                  (messages (ui w) ++ [userMessageOf (input (ui w)) clk]);
              config := {| systemInstruction := systemInstructionText |} |}];
        uncaught := uncaught w |}).
Proof.
  destruct (blank (input (ui w))) eqn:Hb.
  - left. apply callHandleSend_blocked. left. exact Hb.
  - destruct (isLoading (ui w)) eqn:Hl.
    + left. apply callHandleSend_blocked. right. exact Hl.
    + right. repeat split. apply callHandleSend_dispatch; assumption.
Qed.

Lemma callHandleSend_consistent (w : World) (clk : Clock) :
  consistent w -> consistent (callHandleSend w clk).
Proof.
  intros Hc. destruct (callHandleSend_cases w clk) as [-> | (_ & Hl & ->)];
    [exact Hc|].
  right. split; [reflexivity|].
  destruct Hc as [[_ Hi] | [Hl' _]]; [|congruence].
  cbn [inflight]. rewrite Hi. eexists. reflexivity.
Qed.

Lemma step_consistent (w w' : World) (ev : Event) :
  consistent w -> step w ev = Some w' -> consistent w'.
Proof.
  intros Hc Hstep. destruct ev as [v | key clk | clk | | s clk]; simpl in Hstep.
  - injection Hstep as <-. exact Hc.
  - destruct (JS.eqb key (utf16 "Enter")); injection Hstep as <-;
      [apply callHandleSend_consistent|]; exact Hc.
  - destruct (sendButton_disabled (ui w)); injection Hstep as <-;
      [|apply callHandleSend_consistent]; exact Hc.
  - injection Hstep as <-. exact Hc.
  - destruct (inflight w) as [|r rest] eqn:Hi; [discriminate|].
    rewrite handleSend_resume_eq in Hstep. injection Hstep as <-.
    left. split; [reflexivity|]. cbn [inflight].
    destruct Hc as [[_ Hi'] | [_ [r' Hi']]]; congruence.
Qed.

Lemma run_consistent (evs : list Event) :
  forall w w', consistent w -> run w evs = Some w' -> consistent w'.
Proof.
  induction evs as [|ev evs IH]; intros w w' Hc Hrun; simpl in Hrun.
  - injection Hrun as <-. exact Hc.
  - destruct (step w ev) as [w1|] eqn:Hstep; [|discriminate].
    apply (IH w1 w' (step_consistent _ _ _ Hc Hstep) Hrun).
Qed.

(** No handler lets an exception escape, whatever the events. *)
Lemma step_uncaught (w w' : World) (ev : Event) :
  step w ev = Some w' -> uncaught w' = uncaught w.
Proof.
  intros Hstep. destruct ev as [v | key clk | clk | | s clk]; simpl in Hstep.
  - injection Hstep as <-. reflexivity.
  - destruct (JS.eqb key (utf16 "Enter")); injection Hstep as <-; [|reflexivity].
    destruct (callHandleSend_cases w clk) as [-> | (_ & _ & ->)]; reflexivity.
  - destruct (sendButton_disabled (ui w)); injection Hstep as <-; [reflexivity|].
    destruct (callHandleSend_cases w clk) as [-> | (_ & _ & ->)]; reflexivity.
  - injection Hstep as <-. reflexivity.
  - destruct (inflight w) as [|r rest]; [discriminate|].
    rewrite handleSend_resume_eq in Hstep. injection Hstep as <-. reflexivity.
Qed.

(** ** Clearing while a request is pending *)

(** C7.  In every reachable world in which a request is pending, a click
    on the trash button empties the conversation but leaves the request in
    flight and [isLoading] set; when that request then settles, with a
    response or with a failure, its message is appended to the cleared
    conversation, which then consists of that message alone. *)
Theorem clear_while_pending_late_reply (evs : list Event) (w : World)
    (s : Settled) (clk : Clock) :
  run initialWorld evs = Some w ->
  isLoading (ui w) = true ->
  exists w1 w2,
    step w ClickClear = Some w1 /\
    messages (ui w1) = [] /\
    inflight w1 = inflight w /\
    inflight w <> [] /\
    isLoading (ui w1) = true /\
    step w1 (Settle s clk) = Some w2 /\
    messages (ui w2) = [replyMessageOf s clk] /\
    role (replyMessageOf s clk) = model /\
    isLoading (ui w2) = false /\
    inflight w2 = [].
Proof.
  intros Hrun Hl.
  destruct (run_consistent evs _ _ initialWorld_consistent Hrun)
    as [[Hl' _] | [_ [r Hi]]]; [congruence|].
  eexists. eexists.
  split; [reflexivity|]. split; [reflexivity|]. split; [reflexivity|].
  split; [rewrite Hi; discriminate|].
  split; [exact Hl|].
  split; [erewrite step_Settle by exact Hi; reflexivity|].
  repeat split.
Qed.

Lemma clear_while_pending_late_reply_witness :
  run initialWorld [Change (utf16 "hello"); KeyDown (utf16 "Enter") clockA]
    = Some helloPending /\
  exists w1 w2,
    step helloPending ClickClear = Some w1 /\
    messages (ui w1) = [] /\
    inflight w1 = inflight helloPending /\
    inflight helloPending <> [] /\
    isLoading (ui w1) = true /\
    step w1 (Settle (Fulfilled (Some (utf16 "hi there"))) clockB) = Some w2 /\
    messages (ui w2) =
      [replyMessageOf (Fulfilled (Some (utf16 "hi there"))) clockB] /\
    role (replyMessageOf (Fulfilled (Some (utf16 "hi there"))) clockB) = model /\
    isLoading (ui w2) = false /\
    inflight w2 = [].
Proof.
  split; [reflexivity|].
  apply (clear_while_pending_late_reply
           [Change (utf16 "hello"); KeyDown (utf16 "Enter") clockA]
           helloPending (Fulfilled (Some (utf16 "hi there"))) clockB).
  - reflexivity.
  - reflexivity.
Defined.

Example scenario_clear_mid_flight :
  option_map (fun w => map text (messages (ui w)))
    (run initialWorld
       [Change (utf16 "hello"); KeyDown (utf16 "Enter") clockA; ClickClear;
        Settle (Fulfilled (Some (utf16 "hi there"))) clockB]) =
    Some [utf16 "hi there"].
Proof. reflexivity. Qed.

(** ** The request *)

Lemma app_one_neq {A} (l : list A) (a : A) : l <> l ++ [a].
Proof.
  intros H. apply (f_equal (@length A)) in H.
  rewrite length_app in H. simpl in H. lia.
Qed.

(** C8.  Whenever an event dispatches a request, the request's [contents]
    are the messages of the conversation as it is after the event, in order,
    each as its role with one text part; that conversation is the one before
    the event followed by the new user message, whose text is the draft; and
    the request's configuration carries the fixed system instruction. *)
Theorem request_serializes_history (w w' : World) (ev : Event)
    (request : GenerateContentParameters) :
  step w ev = Some w' ->
  inflight w' = inflight w ++ [request] ->
  contents request =
    map (fun m => {| content_role := role m;
                     parts := [{| part_text := text m |}] |})
        (messages (ui w')) /\
  (exists m, messages (ui w') = messages (ui w) ++ [m] /\
             role m = user /\ text m = input (ui w)) /\
  systemInstruction (config request) = systemInstructionText /\
  request_model request = modelName.
Proof.
  intros Hstep Hin.
  assert (Hcall : forall clk, w' = callHandleSend w clk ->
    contents request = map toContent (messages (ui w')) /\
    (exists m, messages (ui w') = messages (ui w) ++ [m] /\
               role m = user /\ text m = input (ui w)) /\
    systemInstruction (config request) = systemInstructionText /\
    request_model request = modelName).
  { intros clk ->.
    destruct (callHandleSend_cases w clk) as [E | (_ & _ & E)];
      rewrite E in Hin |- *.
    - exfalso. exact (app_one_neq _ _ Hin).
    - cbn [inflight] in Hin. apply app_inv_head in Hin.
      injection Hin as <-. cbn [ui messages contents config systemInstruction
                                request_model].
      repeat split. eexists. repeat split. }
  destruct ev as [v | key clk | clk | | s clk]; simpl in Hstep.
  - injection Hstep as <-. exfalso. exact (app_one_neq _ _ Hin).
  - destruct (JS.eqb key (utf16 "Enter")); injection Hstep as <-.
    + exact (Hcall clk eq_refl).
    + exfalso. exact (app_one_neq _ _ Hin).
  - destruct (sendButton_disabled (ui w)); injection Hstep as <-.
    + exfalso. exact (app_one_neq _ _ Hin).
    + exact (Hcall clk eq_refl).
  - injection Hstep as <-. exfalso. exact (app_one_neq _ _ Hin).
  - destruct (inflight w) as [|r rest] eqn:Hi; [discriminate|].
    rewrite handleSend_resume_eq in Hstep. injection Hstep as <-.
    cbn [inflight] in Hin. exfalso.
    apply (f_equal (@length _)) in Hin.
    rewrite length_app in Hin. simpl in Hin. lia.
Qed.

Lemma request_serializes_history_witness :
  contents followUpRequest =
    map (fun m => {| content_role := role m;
                     parts := [{| part_text := text m |}] |})
        (messages (ui followUpPending)) /\
  (exists m, messages (ui followUpPending) = messages (ui followUpWorld) ++ [m] /\
             role m = user /\ text m = input (ui followUpWorld)) /\
  systemInstruction (config followUpRequest) = systemInstructionText /\
  request_model followUpRequest = modelName.
Proof.
  apply (request_serializes_history followUpWorld followUpPending
           (ClickSend clockB) followUpRequest).
  - reflexivity.
  - reflexivity.
Defined.

(** * Further properties of the component *)

(** ** Requests in flight *)

Lemma run_snoc (w : World) (evs : list Event) (ev : Event) :
  run w (evs ++ [ev]) =
    match run w evs with
    | Some w1 => step w1 ev
    | None => None
    end.
Proof.
  rewrite run_app. destruct (run w evs) as [w1|]; [|reflexivity].
  simpl. destruct (step w1 ev); reflexivity.
Qed.

(** X1.  In every world reachable from the initial one at most one request is
    in flight, and [isLoading] is true exactly when there is one. *)
Theorem one_request_in_flight (evs : list Event) (w : World) :
  run initialWorld evs = Some w ->
  (length (inflight w) <= 1)%nat /\
  (isLoading (ui w) = true <-> inflight w <> []).
Proof.
  intros Hrun.
  destruct (run_consistent evs _ _ initialWorld_consistent Hrun)
    as [[Hl Hi] | [Hl [r Hi]]]; rewrite Hl, Hi; simpl.
  - split; [lia|]. split; [discriminate | intros H; now elim H].
  - split; [lia|]. split; [discriminate | reflexivity].
Qed.

Lemma one_request_in_flight_witness :
  (length (inflight helloPending) <= 1)%nat /\
  (isLoading (ui helloPending) = true <-> inflight helloPending <> []).
Proof.
  apply (one_request_in_flight
           [Change (utf16 "hello"); KeyDown (utf16 "Enter") clockA]).
  reflexivity.
Defined.

(** X2.  [isLoading] never stays set for ever: in every reachable world where it
    is true, the settling of the request, with whatever outcome, appends
    one message and leaves the world idle. *)
Theorem loading_ends_with_settling (evs : list Event) (w : World)
    (s : Settled) (clk : Clock) :
  run initialWorld evs = Some w ->
  isLoading (ui w) = true ->
  exists w',
    step w (Settle s clk) = Some w' /\
    idle w' /\
    length (messages (ui w')) = S (length (messages (ui w))).
Proof.
  intros Hrun Hl.
  destruct (run_consistent evs _ _ initialWorld_consistent Hrun)
    as [[Hl' _] | [_ [r Hi]]]; [congruence|].
  eexists. split; [apply (step_Settle w s clk r [] Hi)|].
  split; [split; reflexivity|].
  cbn [ui messages]. rewrite length_app. simpl. lia.
Qed.

Lemma loading_ends_with_settling_witness :
  exists w',
    step helloPending (Settle (Rejected (ApiError 503)) clockB) = Some w' /\
    idle w' /\
    length (messages (ui w')) = S (length (messages (ui helloPending))).
Proof.
  apply (loading_ends_with_settling
           [Change (utf16 "hello"); KeyDown (utf16 "Enter") clockA]
           helloPending (Rejected (ApiError 503)) clockB).
  - reflexivity.
  - reflexivity.
Defined.

(** X3.  No sequence of events makes a handler throw past its boundary: the
    list of uncaught exceptions after a run is the one before it. *)
Theorem run_never_uncaught (evs : list Event) (w w' : World) :
  run w evs = Some w' -> uncaught w' = uncaught w.
Proof.
  revert w. induction evs as [|ev evs IH]; intros w Hrun; simpl in Hrun.
  - injection Hrun as <-. reflexivity.
  - destruct (step w ev) as [w1|] eqn:Hstep; [|discriminate].
    rewrite (IH w1 Hrun). apply (step_uncaught _ _ _ Hstep).
Qed.

Lemma run_never_uncaught_witness :
  uncaught
    {| ui := {| messages := exchange_messages failedExchange;
                input := [];
                isLoading := false |};
       inflight := [];
       uncaught := [] |} = uncaught initialWorld.
Proof.
  apply (run_never_uncaught (exchange_events failedExchange) initialWorld).
  vm_compute. reflexivity.
Defined.

(** ** The two ways of sending *)

(** X4.  A click on the send button and Enter in the text field have the same
    effect in every world: the button is disabled exactly when the guard of
    [handleSend] returns early. *)
Theorem click_same_as_enter (w : World) (clk : Clock) :
  step w (ClickSend clk) = step w (KeyDown (utf16 "Enter") clk).
Proof.
  rewrite step_Enter. simpl. rewrite sendButton_disabled_blocked.
  destruct (blank (input (ui w))) eqn:Hb; simpl.
  - rewrite callHandleSend_blocked; [reflexivity | left; exact Hb].
  - destruct (isLoading (ui w)) eqn:Hl; [|reflexivity].
    rewrite callHandleSend_blocked; [reflexivity | right; exact Hl].
Qed.

(** A key other than Enter does nothing. *)
Lemma other_key_ignored (w : World) (key : jsstring) (clk : Clock) :
  key <> utf16 "Enter" -> step w (KeyDown key clk) = Some w.
Proof.
  intros Hk. simpl. destruct (JS.eqb key (utf16 "Enter")) eqn:E; [|reflexivity].
  apply eqb_eq in E. contradiction.
Qed.

(** ** Turn taking *)

Lemma lastRole_snoc (rs : list Role) (r : Role) :
  lastRole (rs ++ [r]) = Some r.
Proof. unfold lastRole. rewrite map_app. apply last_last. Qed.

Lemma lastRole_cons (a b : Role) (rs : list Role) :
  lastRole (a :: b :: rs) = lastRole (b :: rs).
Proof. reflexivity. Qed.

Lemma alternating_snoc (rs : list Role) (r : Role) :
  alternating (rs ++ [r]) =
    alternating rs &&
    match lastRole rs with
    | Some l => negb (Role_eqb l r)
    | None => true
    end.
Proof.
  induction rs as [|a rs IH]; [reflexivity|].
  destruct rs as [|b rs].
  - simpl. destruct (Role_eqb a r); reflexivity.
  - change ((a :: b :: rs) ++ [r]) with (a :: b :: (rs ++ [r])).
    change (alternating (a :: b :: (rs ++ [r])))
      with (negb (Role_eqb a b) && alternating ((b :: rs) ++ [r])).
    rewrite IH, lastRole_cons.
    change (alternating (a :: b :: rs))
      with (negb (Role_eqb a b) && alternating (b :: rs)).
    rewrite andb_assoc. reflexivity.
Qed.

(** Appending a message of role [r] to a conversation whose last message,
    if any, has the other role. *)
Lemma turnTaking_append (ms : list Message) (m : Message) (other : Role) :
  alternating (map role ms) = true ->
  ms = [] \/ lastRole (map role ms) = Some other ->
  Role_eqb other (role m) = false ->
  alternating (map role (ms ++ [m])) = true /\
  lastRole (map role (ms ++ [m])) = Some (role m).
Proof.
  intros Halt Hlast Hne. rewrite map_app. simpl map.
  split; [|apply lastRole_snoc].
  rewrite alternating_snoc, Halt. simpl.
  destruct Hlast as [-> | ->]; [reflexivity|]. rewrite Hne. reflexivity.
Qed.

Lemma callHandleSend_turnTaking (w : World) (clk : Clock) :
  turnTaking (ui w) -> turnTaking (ui (callHandleSend w clk)).
Proof.
  intros [Halt Hlast].
  destruct (callHandleSend_cases w clk) as [-> | (_ & Hl & ->)];
    [split; assumption|].
  rewrite Hl in Hlast.
  destruct (turnTaking_append (messages (ui w))
              (userMessageOf (input (ui w)) clk) model Halt Hlast eq_refl)
    as [Ha Hb].
  split; [exact Ha | right; exact Hb].
Qed.

Lemma step_turnTaking (w w' : World) (ev : Event) :
  consistent w -> turnTaking (ui w) -> step w ev = Some w' ->
  turnTaking (ui w').
Proof.
  intros Hc Ht Hstep.
  destruct ev as [v | key clk | clk | | s clk]; simpl in Hstep.
  - injection Hstep as <-. exact Ht.
  - destruct (JS.eqb key (utf16 "Enter")); injection Hstep as <-;
      [apply callHandleSend_turnTaking|]; exact Ht.
  - destruct (sendButton_disabled (ui w)); injection Hstep as <-;
      [|apply callHandleSend_turnTaking]; exact Ht.
  - injection Hstep as <-. split; [reflexivity | left; reflexivity].
  - destruct (inflight w) as [|r rest] eqn:Hi; [discriminate|].
    rewrite handleSend_resume_eq in Hstep. injection Hstep as <-.
    destruct Hc as [[_ Hi'] | [Hl _]]; [congruence|].
    destruct Ht as [Halt Hlast]. rewrite Hl in Hlast.
    destruct (turnTaking_append (messages (ui w)) (replyMessageOf s clk) user
                Halt Hlast eq_refl) as [Ha Hb].
    split; [exact Ha | right; exact Hb].
Qed.

Lemma run_turnTaking (evs : list Event) :
  forall w w', consistent w -> turnTaking (ui w) -> run w evs = Some w' ->
  turnTaking (ui w').
Proof.
  induction evs as [|ev evs IH]; intros w w' Hc Ht Hrun; simpl in Hrun.
  - injection Hrun as <-. exact Ht.
  - destruct (step w ev) as [w1|] eqn:Hstep; [|discriminate].
    apply (IH w1 w' (step_consistent _ _ _ Hc Hstep)
             (step_turnTaking _ _ _ Hc Ht Hstep) Hrun).
Qed.

Lemma initialWorld_turnTaking : turnTaking (ui initialWorld).
Proof. split; [reflexivity | left; reflexivity]. Qed.

(** X5.  In every reachable conversation no two neighbouring messages have the
    same role, and the last message, if there is one, is the user's while
    [isLoading] is true and the model's while it is false. *)
Theorem roles_alternate (evs : list Event) (w : World) :
  run initialWorld evs = Some w ->
  alternating (map role (messages (ui w))) = true /\
  (messages (ui w) = [] \/
   lastRole (map role (messages (ui w))) =
     Some (if isLoading (ui w) then user else model)).
Proof.
  intros Hrun.
  exact (run_turnTaking evs _ _ initialWorld_consistent
           initialWorld_turnTaking Hrun).
Qed.

Lemma roles_alternate_witness :
  alternating (map role (messages (ui followUpPending))) = true /\
  (messages (ui followUpPending) = [] \/
   lastRole (map role (messages (ui followUpPending))) =
     Some (if isLoading (ui followUpPending) then user else model)).
Proof.
  apply (roles_alternate
           (exchange_events helloExchange ++
            [Change (utf16 "and you?"); ClickSend clockB])).
  vm_compute. reflexivity.
Defined.

(** What a step that dispatches a request looks like. *)
Lemma step_dispatch_inv (w w' : World) (ev : Event)
    (request : GenerateContentParameters) :
  step w ev = Some w' ->
  inflight w' = inflight w ++ [request] ->
  exists clk,
    isLoading (ui w) = false /\
    blank (input (ui w)) = false /\
    messages (ui w') = messages (ui w) ++ [userMessageOf (input (ui w)) clk] /\
    isLoading (ui w') = true /\
    contents request = map toContent (messages (ui w')).
Proof.
  intros Hstep Hin.
  assert (Hcall : forall clk, w' = callHandleSend w clk ->
    exists clk0,
      isLoading (ui w) = false /\
      blank (input (ui w)) = false /\
      messages (ui w') =
        messages (ui w) ++ [userMessageOf (input (ui w)) clk0] /\
      isLoading (ui w') = true /\
      contents request = map toContent (messages (ui w'))).
  { intros clk ->.
    destruct (callHandleSend_cases w clk) as [E | (Hb & Hl & E)];
      rewrite E in Hin |- *.
    - exfalso. exact (app_one_neq _ _ Hin).
    - cbn [inflight] in Hin. apply app_inv_head in Hin.
      injection Hin as <-. exists clk. cbn [ui messages isLoading contents].
      repeat split; assumption. }
  destruct ev as [v | key clk | clk | | s clk]; simpl in Hstep.
  - injection Hstep as <-. exfalso. exact (app_one_neq _ _ Hin).
  - destruct (JS.eqb key (utf16 "Enter")); injection Hstep as <-.
    + exact (Hcall clk eq_refl).
    + exfalso. exact (app_one_neq _ _ Hin).
  - destruct (sendButton_disabled (ui w)); injection Hstep as <-.
    + exfalso. exact (app_one_neq _ _ Hin).
    + exact (Hcall clk eq_refl).
  - injection Hstep as <-. exfalso. exact (app_one_neq _ _ Hin).
  - destruct (inflight w) as [|r rest] eqn:Hi; [discriminate|].
    rewrite handleSend_resume_eq in Hstep. injection Hstep as <-.
    cbn [inflight] in Hin. exfalso.
    apply (f_equal (@length _)) in Hin.
    rewrite length_app in Hin. simpl in Hin. lia.
Qed.

Lemma map_role_toContent (ms : list Message) :
  map content_role (map toContent ms) = map role ms.
Proof. rewrite map_map. reflexivity. Qed.

(** X6.  Every request dispatched from a reachable world lists entries whose
    roles alternate and whose last entry is the user's. *)
Theorem request_roles_alternate (evs : list Event) (w w' : World) (ev : Event)
    (request : GenerateContentParameters) :
  run initialWorld evs = Some w ->
  step w ev = Some w' ->
  inflight w' = inflight w ++ [request] ->
  alternating (map content_role (contents request)) = true /\
  lastRole (map content_role (contents request)) = Some user.
Proof.
  intros Hrun Hstep Hin.
  destruct (step_dispatch_inv w w' ev request Hstep Hin)
    as (clk & _ & _ & Hmsg & Hl & Hc).
  assert (Hrun' : run initialWorld (evs ++ [ev]) = Some w').
  { rewrite run_snoc, Hrun. exact Hstep. }
  destruct (run_turnTaking (evs ++ [ev]) _ _ initialWorld_consistent
              initialWorld_turnTaking Hrun') as [Halt _].
  rewrite Hc, map_role_toContent. split; [exact Halt|].
  rewrite Hmsg, map_app. apply lastRole_snoc.
Qed.

Lemma request_roles_alternate_witness :
  alternating (map content_role (contents followUpRequest)) = true /\
  lastRole (map content_role (contents followUpRequest)) = Some user.
Proof.
  apply (request_roles_alternate
           (exchange_events helloExchange ++ [Change (utf16 "and you?")])
           followUpWorld followUpPending (ClickSend clockB) followUpRequest).
  - vm_compute. reflexivity.
  - reflexivity.
  - reflexivity.
Defined.

(** ** What is stored *)

Lemma errorText_not_empty : errorText <> [].
Proof. discriminate. Qed.

Lemma replyMessageOf_hasContent (s : Settled) (clk : Clock) :
  hasContent (replyMessageOf s clk).
Proof.
  unfold hasContent. cbn [role text replyMessageOf].
  destruct s as [[[|c t]|]|e]; cbn [or_else truthy].
  - exact fallbackText_not_empty.
  - discriminate.
  - exact fallbackText_not_empty.
  - exact errorText_not_empty.
Qed.

Lemma step_hasContent (w w' : World) (ev : Event) :
  Forall hasContent (messages (ui w)) -> step w ev = Some w' ->
  Forall hasContent (messages (ui w')).
Proof.
  intros Hall Hstep.
  assert (Hcall : forall clk,
            Forall hasContent (messages (ui (callHandleSend w clk)))).
  { intros clk.
    destruct (callHandleSend_cases w clk) as [-> | (Hb & _ & ->)];
      [exact Hall|].
    cbn [ui messages]. apply Forall_app. split; [exact Hall|].
    constructor; [exact Hb | constructor]. }
  destruct ev as [v | key clk | clk | | s clk]; simpl in Hstep.
  - injection Hstep as <-. exact Hall.
  - destruct (JS.eqb key (utf16 "Enter")); injection Hstep as <-;
      [apply Hcall | exact Hall].
  - destruct (sendButton_disabled (ui w)); injection Hstep as <-;
      [exact Hall | apply Hcall].
  - injection Hstep as <-. constructor.
  - destruct (inflight w) as [|r rest]; [discriminate|].
    rewrite handleSend_resume_eq in Hstep. injection Hstep as <-.
    cbn [ui messages]. apply Forall_app. split; [exact Hall|].
    constructor; [apply replyMessageOf_hasContent | constructor].
Qed.

(** X7.  No message without content is ever stored: after any run from a world
    whose messages have content, every user message has a text that is not
    blank and every model message a text that is not empty. *)
Theorem stored_messages_have_content (evs : list Event) (w w' : World) :
  Forall hasContent (messages (ui w)) ->
  run w evs = Some w' ->
  Forall hasContent (messages (ui w')).
Proof.
  revert w. induction evs as [|ev evs IH]; intros w Hall Hrun; simpl in Hrun.
  - injection Hrun as <-. exact Hall.
  - destruct (step w ev) as [w1|] eqn:Hstep; [|discriminate].
    apply (IH w1 (step_hasContent _ _ _ Hall Hstep) Hrun).
Qed.

Lemma stored_messages_have_content_witness :
  Forall hasContent (messages (ui followUpPending)).
Proof.
  apply (stored_messages_have_content
           (exchange_events helloExchange ++
            [Change (utf16 "and you?"); ClickSend clockB])
           initialWorld followUpPending).
  - constructor.
  - vm_compute. reflexivity.
Defined.

(** A model message can be white space only: the fallback replaces an
    empty text, not a blank one. *)
Lemma blank_reply_is_stored (clk : Clock) :
  text (replyMessageOf (Fulfilled (Some (utf16 " "))) clk) = utf16 " ".
Proof. reflexivity. Qed.

Lemma step_messages_grow (w w' : World) (ev : Event) :
  isClear ev = false -> step w ev = Some w' ->
  exists added,
    messages (ui w') = messages (ui w) ++ added /\ (length added <= 1)%nat.
Proof.
  intros Hnc Hstep.
  assert (Hcall : forall clk, exists added,
            messages (ui (callHandleSend w clk)) = messages (ui w) ++ added /\
            (length added <= 1)%nat).
  { intros clk.
    destruct (callHandleSend_cases w clk) as [-> | (_ & _ & ->)].
    - exists []. rewrite app_nil_r. split; [reflexivity | simpl; lia].
    - eexists. split; [reflexivity | simpl; lia]. }
  assert (Hsame : exists added,
            messages (ui w) = messages (ui w) ++ added /\
            (length added <= 1)%nat).
  { exists []. rewrite app_nil_r. split; [reflexivity | simpl; lia]. }
  destruct ev as [v | key clk | clk | | s clk]; simpl in Hstep.
  - injection Hstep as <-. exact Hsame.
  - destruct (JS.eqb key (utf16 "Enter")); injection Hstep as <-;
      [apply Hcall | exact Hsame].
  - destruct (sendButton_disabled (ui w)); injection Hstep as <-;
      [exact Hsame | apply Hcall].
  - discriminate Hnc.
  - destruct (inflight w) as [|r rest]; [discriminate|].
    rewrite handleSend_resume_eq in Hstep. injection Hstep as <-.
    eexists. split; [reflexivity | simpl; lia].
Qed.

(** X8.  Without a click on the trash button the conversation only grows at its
    end: after a run with no clear, the earlier conversation is a prefix of
    the later one, unchanged, and at most one message was added per event. *)
Theorem conversation_append_only (evs : list Event) (w w' : World) :
  forallb (fun ev => negb (isClear ev)) evs = true ->
  run w evs = Some w' ->
  exists added,
    messages (ui w') = messages (ui w) ++ added /\
    (length added <= length evs)%nat.
Proof.
  revert w. induction evs as [|ev evs IH]; intros w Hnc Hrun; simpl in Hrun.
  - injection Hrun as <-. exists []. rewrite app_nil_r. split; [reflexivity|].
    simpl. lia.
  - simpl in Hnc. apply andb_prop in Hnc. destruct Hnc as [Hev Hrest].
    apply negb_true_iff in Hev.
    destruct (step w ev) as [w1|] eqn:Hstep; [|discriminate].
    destruct (step_messages_grow _ _ _ Hev Hstep) as (a1 & E1 & L1).
    destruct (IH w1 Hrest Hrun) as (a2 & E2 & L2).
    exists (a1 ++ a2). rewrite E2, E1, <- app_assoc. split; [reflexivity|].
    rewrite length_app. simpl. lia.
Qed.

Lemma conversation_append_only_witness :
  exists added,
    messages (ui followUpPending) = messages (ui followUpWorld) ++ added /\
    (length added <= length [KeyDown (utf16 "Shift") clockA; ClickSend clockB])%nat.
Proof.
  apply (conversation_append_only
           [KeyDown (utf16 "Shift") clockA; ClickSend clockB]
           followUpWorld followUpPending).
  - reflexivity.
  - vm_compute. reflexivity.
Defined.

(** ** The draft *)

Lemma step_keepsDraft (w w' : World) (ev : Event) :
  keepsDraft ev = true -> step w ev = Some w' -> input (ui w') = input (ui w).
Proof.
  intros Hk Hstep. destruct ev as [v | key clk | clk | | s clk];
    try discriminate Hk; simpl in Hstep.
  - injection Hstep as <-. reflexivity.
  - destruct (inflight w) as [|r rest]; [discriminate|].
    rewrite handleSend_resume_eq in Hstep. injection Hstep as <-. reflexivity.
Qed.

(** X9.  What the user types stays in the text field, as typed, through the
    arrival of replies and through clears: only typing and a send that is
    dispatched change the draft. *)
Theorem draft_survives_reply_and_clear (evs : list Event) (w w' : World)
    (v : jsstring) :
  forallb keepsDraft evs = true ->
  run w (Change v :: evs) = Some w' ->
  input (ui w') = v /\ field_value (render (ui w')) = v.
Proof.
  intros Hk Hrun. cbn [run step] in Hrun.
  assert (H : forall evs w0 w1, forallb keepsDraft evs = true ->
            run w0 evs = Some w1 -> input (ui w1) = input (ui w0)).
  { clear. induction evs as [|ev evs IH]; intros w0 w1 Hk Hrun;
      simpl in Hrun.
    - injection Hrun as <-. reflexivity.
    - simpl in Hk. apply andb_prop in Hk. destruct Hk as [Hev Hrest].
      destruct (step w0 ev) as [w2|] eqn:Hstep; [|discriminate].
      rewrite (IH w2 w1 Hrest Hrun). apply (step_keepsDraft _ _ _ Hev Hstep). }
  pose proof (H evs _ _ Hk Hrun) as E. cbn [ui input setInput snd] in E.
  split; exact E.
Qed.

Lemma draft_survives_reply_and_clear_witness :
  input (ui {| ui := {| messages := [replyMessageOf (Fulfilled None) clockB];
                        input := utf16 "next question";
                        isLoading := false |};
               inflight := [];
               uncaught := [] |}) = utf16 "next question" /\
  field_value
    (render (ui {| ui := {| messages := [replyMessageOf (Fulfilled None) clockB];
                            input := utf16 "next question";
                            isLoading := false |};
                   inflight := [];
                   uncaught := [] |})) = utf16 "next question".
Proof.
  apply (draft_survives_reply_and_clear
           [ClickClear; Settle (Fulfilled None) clockB] helloPending).
  - reflexivity.
  - vm_compute. reflexivity.
Defined.

(** ** Clearing and the next request *)

(** X10.  After a clear in an idle world the next request carries the new user
    message alone: nothing of the cleared conversation is sent again. *)
Theorem clear_forgets_history (w : World) (v : jsstring) (clk : Clock)
    (ev : Event) :
  idle w -> blank v = false -> sendAttempt clk ev ->
  exists w',
    run w [ClickClear; Change v; ev] = Some w' /\
    messages (ui w') = [userMessageOf v clk] /\
    map contents (inflight w') =
      [[{| content_role := user; parts := [{| part_text := v |}] |}]].
Proof.
  intros [Hl Hi] Hb Hev.
  eexists. split.
  - change [ClickClear; Change v; ev] with ([ClickClear] ++ [Change v; ev]).
    rewrite run_app. cbn [run step clearChat setMessages snd].
    apply run_type_and_send; [split; assumption | exact Hb | exact Hev].
  - split; reflexivity.
Qed.

Lemma clear_forgets_history_witness :
  exists w',
    run followUpWorld [ClickClear; Change (utf16 "hello"); ClickSend clockB]
      = Some w' /\
    messages (ui w') = [userMessageOf (utf16 "hello") clockB] /\
    map contents (inflight w') =
      [[{| content_role := user;
           parts := [{| part_text := utf16 "hello" |}] |}]].
Proof.
  apply (clear_forgets_history followUpWorld (utf16 "hello") clockB
           (ClickSend clockB)).
  - split; reflexivity.
  - reflexivity.
  - right. reflexivity.
Defined.

(** X11.  After a clear while a request is pending, the reply that arrives late
    becomes the first message of the new conversation, and the next request
    starts with it: its first entry has the model's role. *)
Theorem late_reply_leads_next_request (evs : list Event) (w : World)
    (s : Settled) (clk clk' : Clock) (v : jsstring) (ev : Event) :
  run initialWorld evs = Some w ->
  isLoading (ui w) = true ->
  blank v = false -> sendAttempt clk' ev ->
  exists w',
    run w [ClickClear; Settle s clk; Change v; ev] = Some w' /\
    messages (ui w') = [replyMessageOf s clk; userMessageOf v clk'] /\
    map contents (inflight w') =
      [[{| content_role := model;
           parts := [{| part_text := text (replyMessageOf s clk) |}] |};
        {| content_role := user; parts := [{| part_text := v |}] |}]].
Proof.
  intros Hrun Hl Hb Hev.
  destruct (run_consistent evs _ _ initialWorld_consistent Hrun)
    as [[Hl' _] | [_ [r Hi]]]; [congruence|].
  eexists. split.
  - change [ClickClear; Settle s clk; Change v; ev]
      with ([ClickClear; Settle s clk] ++ [Change v; ev]).
    rewrite run_app. cbn [run step clearChat setMessages snd].
    rewrite Hi, handleSend_resume_eq. cbn [ui messages input app].
    apply run_type_and_send; [split; reflexivity | exact Hb | exact Hev].
  - split; reflexivity.
Qed.

Lemma late_reply_leads_next_request_witness :
  exists w',
    run helloPending
      [ClickClear; Settle (Fulfilled (Some (utf16 "hi there"))) clockB;
       Change (utf16 "and you?"); KeyDown (utf16 "Enter") clockB] = Some w' /\
    messages (ui w') =
      [replyMessageOf (Fulfilled (Some (utf16 "hi there"))) clockB;
       userMessageOf (utf16 "and you?") clockB] /\
    map contents (inflight w') =
      [[{| content_role := model;
           parts :=
             [{| part_text :=
                   text (replyMessageOf (Fulfilled (Some (utf16 "hi there")))
                           clockB) |}] |};
        {| content_role := user;
           parts := [{| part_text := utf16 "and you?" |}] |}]].
Proof.
  apply (late_reply_leads_next_request
           [Change (utf16 "hello"); KeyDown (utf16 "Enter") clockA]
           helloPending (Fulfilled (Some (utf16 "hi there"))) clockB clockB
           (utf16 "and you?") (KeyDown (utf16 "Enter") clockB)).
  - reflexivity.
  - reflexivity.
  - reflexivity.
  - left. reflexivity.
Defined.

(** ** The rendered tree *)

(** The loading indicator is on screen exactly when [isLoading] is true and
    the conversation is not empty: it sits in the branch that is rendered
    for a conversation with messages. *)
Theorem loading_indicator_iff (st : AppState) :
  showsLoading (render st) = true <->
  isLoading st = true /\ messages st <> [].
Proof.
  unfold showsLoading, render. cbn [main].
  destruct (messages st) as [|m ms]; cbn [length Nat.eqb].
  - split; [discriminate | intros [_ H]; now elim H].
  - split; [intros H; split; [exact H | discriminate] | intros [H _]; exact H].
Qed.

(** X12.  After a clear while a request is pending, the welcome panel is shown
    without any loading indicator, although the request is still in flight
    and the send button is disabled. *)
Theorem pending_hidden_after_clear (evs : list Event) (w : World) :
  run initialWorld evs = Some w ->
  isLoading (ui w) = true ->
  exists w1,
    step w ClickClear = Some w1 /\
    inflight w1 <> [] /\
    main (render (ui w1)) = Welcome /\
    showsLoading (render (ui w1)) = false /\
    send_disabled (render (ui w1)) = true.
Proof.
  intros Hrun Hl.
  destruct (run_consistent evs _ _ initialWorld_consistent Hrun)
    as [[Hl' _] | [_ [r Hi]]]; [congruence|].
  eexists. split; [reflexivity|].
  cbn [inflight]. split; [rewrite Hi; discriminate|].
  split; [reflexivity|]. split; [reflexivity|].
  cbn [render send_disabled ui clearChat setMessages snd isLoading].
  rewrite Hl. apply orb_true_r.
Qed.

Lemma pending_hidden_after_clear_witness :
  exists w1,
    step helloPending ClickClear = Some w1 /\
    inflight w1 <> [] /\
    main (render (ui w1)) = Welcome /\
    showsLoading (render (ui w1)) = false /\
    send_disabled (render (ui w1)) = true.
Proof.
  apply (pending_hidden_after_clear
           [Change (utf16 "hello"); KeyDown (utf16 "Enter") clockA]
           helloPending).
  - reflexivity.
  - reflexivity.
Defined.

Lemma sendClasses_differ : sendActiveClass <> sendInactiveClass.
Proof. discriminate. Qed.

(** X13.  The send button carries its active class exactly when it is not
    disabled: the two conditions of the source, one written with [&&] and
    one with [||], agree in every state. *)
Theorem send_class_matches_disabled (st : AppState) :
  send_class (render st) = sendActiveClass <->
  send_disabled (render st) = false.
Proof.
  unfold render. cbn [send_class send_disabled].
  destruct (truthy (trim (input st))), (isLoading st); cbn [negb orb andb].
  2: split; reflexivity.
  all: split; intros H;
    [exfalso; exact (sendClasses_differ (eq_sym H)) | discriminate H].
Qed.

(** The bubbles are the messages, in order, each with the icon of its
    role, keyed by the message id. *)
Lemma render_bubbles (st : AppState) (m : Message) (ms : list Message) :
  messages st = m :: ms ->
  main (render st) = Chat (map renderMessage (m :: ms)) (isLoading st).
Proof. intros H. unfold render. rewrite H. reflexivity. Qed.

(** ** Message ids as React keys *)











(** X15.  A reply that settles at clock reading T and a send at reading T + 1
    give two neighbouring messages the same id, although the clock moved
    on between them. *)
Theorem id_collision_one_millisecond_later (w : World) (x : Exchange)
    (v : jsstring) (d : N) :
  idle w -> blank (draft x) = false -> blank v = false ->
  exists w' m1 m2,
    run w (exchange_events x ++
           [Change v;
            KeyDown (utf16 "Enter")
              {| now := now (settledAt x) + 1; date := d |}]) = Some w' /\
    messages (ui w') =
      messages (ui w) ++ [userMessageOf (draft x) (sentAt x); m1; m2] /\
    role m1 = model /\ role m2 = user /\
    id m1 = id m2.
Proof.
  intros Hidle Hx Hv.
  eexists. eexists. eexists. split.
  - rewrite run_app, (run_exchange w x Hidle Hx).
    apply run_type_and_send; [split; reflexivity | exact Hv |].
    left. reflexivity.
  - cbn [ui messages exchange_messages]. rewrite <- app_assoc.
    split; [reflexivity|]. repeat split.
Qed.

Lemma id_collision_one_millisecond_later_witness :
  exists w' m1 m2,
    run initialWorld
      (exchange_events helloExchange ++
       [Change (utf16 "and you?");
        KeyDown (utf16 "Enter")
          {| now := now (settledAt helloExchange) + 1; date := 1700000001502 |}])
      = Some w' /\
    messages (ui w') =
      messages (ui initialWorld) ++
      [userMessageOf (draft helloExchange) (sentAt helloExchange); m1; m2] /\
    role m1 = model /\ role m2 = user /\
    id m1 = id m2.
Proof.
  apply (id_collision_one_millisecond_later initialWorld helloExchange
           (utf16 "and you?") 1700000001502).
  - split; reflexivity.
  - reflexivity.
  - reflexivity.
Defined.
